(** * signal_bot_15m: Hammer / Shooting Star scanner

    A shallow embedding of [signal_bot_15m.py] and the properties its
    specification states about it.

    Prices are Python floats (IEEE-754 binary64).  They are modelled by
    the bit-level specification of binary64 arithmetic of the standard
    library ([SpecFloat], precision 53, exponent bound 1024): every
    operation below rounds exactly as the interpreter does. *)

From Stdlib Require Import ZArith Lia Bool List String Ascii.
From Stdlib Require Import Floats.SpecFloat Floats.PrimFloat Floats.FloatOps.
From Stdlib Require Import DecimalString.
Import ListNotations.

Local Open Scope Z_scope.

(** ** Binary64 numbers *)

Module Float64.

Definition prec : Z := 53.
Definition emax : Z := 1024.

Definition t : Type := spec_float.

Definition sub (x y : t) : t := SFsub prec emax x y.
Definition mul (x y : t) : t := SFmul prec emax x y.
Definition abs (x : t) : t := SFabs x.

(** [x == y], [x < y], [x > y] *)
Definition eqb (x y : t) : bool := SFeqb x y.
Definition ltb (x y : t) : bool := SFltb x y.
Definition gtb (x y : t) : bool := SFltb y x.

(** The value a Python [int] takes when it meets a float. *)
Definition of_int (z : Z) : t := binary_normalize prec emax z 0 false.

(** [m * 2^e], rounded to nearest even. *)
Definition of_scaled (m e : Z) : t := binary_normalize prec emax m e false.

Definition valid (x : t) : bool := valid_binary prec emax x.

(** The literals [1.8] and [0.6] of the source: the doubles nearest
    to 9/5 and 3/5. *)
Definition lit_1_8 : t := S754_finite false 8106479329266893 (-52).
Definition lit_0_6 : t := S754_finite false 5404319552844595 (-53).

End Float64.

Declare Scope f64_scope.
Delimit Scope f64_scope with f64.
Bind Scope f64_scope with Float64.t.
Infix "-" := Float64.sub : f64_scope.
Infix "*" := Float64.mul : f64_scope.
Infix "==" := Float64.eqb (at level 70, no associativity) : f64_scope.
Infix "<?" := Float64.ltb : f64_scope.
Infix ">?" := Float64.gtb : f64_scope.

(** Python's builtin [min] and [max] on two arguments: the first
    argument is kept unless the second one is strictly smaller
    (resp. greater). *)
Definition py_min (a b : Float64.t) : Float64.t :=
  if (b <? a)%f64 then b else a.

Definition py_max (a b : Float64.t) : Float64.t :=
  if (b >? a)%f64 then b else a.

(** ** Pattern definitions *)

Record candle : Type := Candle {
  open : Float64.t;
  high : Float64.t;
  low : Float64.t;
  close : Float64.t
}.

Definition candle_body (c : candle) : Float64.t :=
  Float64.abs (close c - open c)%f64.

Definition lower_wick (c : candle) : Float64.t :=
  (py_min (open c) (close c) - low c)%f64.

Definition upper_wick (c : candle) : Float64.t :=
  (high c - py_max (open c) (close c))%f64.

Definition is_hammer_candle (c : candle) : bool :=
  let o := open c in
  let h := high c in
  let l := low c in
  let cl := close c in
  let body := Float64.abs (cl - o)%f64 in
  if (body == Float64.of_int 0)%f64 then false
  else
    let lower := (py_min o cl - l)%f64 in
    let upper := (h - py_max o cl)%f64 in
    (lower >? body * Float64.lit_1_8)%f64 && (upper <? body * Float64.lit_0_6)%f64.

Definition is_shooting_star_candle (c : candle) : bool :=
  let o := open c in
  let h := high c in
  let l := low c in
  let cl := close c in
  let body := Float64.abs (cl - o)%f64 in
  if (body == Float64.of_int 0)%f64 then false
  else
    let upper := (h - py_max o cl)%f64 in
    let lower := (py_min o cl - l)%f64 in
    (upper >? body * Float64.lit_1_8)%f64 && (lower <? body * Float64.lit_0_6)%f64.

(** ** Rounding, as [SpecFloat] performs it

    The definitions below describe in closed form what the shift
    register of [binary_round_aux] holds; they are used to reason about
    the products [body * 1.8] and [body * 0.6]. *)

(** The record reached after [k] one-bit shifts of [M]: quotient, round
    bit, sticky bit. *)
Definition shifted (M : Z) (k : Z) : shr_record :=
  Build_shr_record (M / 2 ^ k)
    (2 ^ k <=? 2 * (M mod 2 ^ k))
    (negb ((2 * (M mod 2 ^ k)) mod 2 ^ k =? 0)).

(** Mantissa after shifting [n] bits out and rounding to nearest even. *)
Definition rnd_m (M n : Z) : Z :=
  round_nearest_even (shr_m (shifted M n)) (loc_of_shr_record (shifted M n)).

Definition round_up (M n : Z) : bool :=
  (2 ^ n <=? 2 * (M mod 2 ^ n))
  && (negb ((2 * (M mod 2 ^ n)) mod 2 ^ n =? 0) || Z.odd (M / 2 ^ n)).

(** What [binary_round_aux] builds from the rounded mantissa [q] at
    exponent [e]: a carry into bit [prec] is renormalised, then zero
    and overflow are told apart. *)
Definition finish (s : bool) (q e : Z) : spec_float :=
  let m := if q =? 2 ^ Float64.prec then 2 ^ (Float64.prec - 1) else q in
  let e' := if q =? 2 ^ Float64.prec then e + 1 else e in
  match m with
  | Z0 => S754_zero s
  | Zpos p =>
      if e' <=? Float64.emax - Float64.prec then S754_finite s p e'
      else S754_infinity s
  | Zneg _ => S754_nan
  end.

(** Whether a number is a NaN. *)
Definition is_nan (x : Float64.t) : bool :=
  match x with S754_nan => true | _ => false end.

(** ** Configuration *)

Definition BOT_TOKEN : string := EmptyString.
Definition CHAT_ID : string := EmptyString.

Definition PAIRS : list string :=
  ["ETH/USDT"; "BCH/USDT"; "SOL/USDT"; "TON/USDT"; "LINK/USDT"]%string.
Definition TIMEFRAME : string := "15m".
Definition FETCH_LIMIT : Z := 10.

(** [1.0] *)
Definition INTER_PAIR_DELAY : Float64.t := S754_finite false 4503599627370496 (-52).
Definition LOGFILE : string := "signals.log".

(** ** Values, exceptions and the outside world *)

(** An exception: its class and the text [str(e)] gives.  Only
    subclasses of [Exception] are modelled, the ones [except Exception]
    catches. *)
Record exn : Type := Exn { exn_class : string; exn_str : string }.

Inductive result (A : Type) : Type :=
| Ok (a : A)
| Raise (e : exn).
Arguments Ok {A} a.
Arguments Raise {A} e.

(** A row of the data frame [fetch_ohlcv_df] builds, after
    [astype(float)]. *)
Record row : Type := Row {
  row_ts : Float64.t;
  row_open : Float64.t;
  row_high : Float64.t;
  row_low : Float64.t;
  row_close : Float64.t;
  row_volume : Float64.t
}.

Definition dataframe : Type := list row.

Record response : Type := Response { status_code : Z; resp_text : string }.

(** A call of [requests.post(url, json=payload, timeout=10)]. *)
Record request : Type := Request {
  req_url : string;
  req_json : list (string * string);
  req_timeout : Z
}.

(** The argument of [time.sleep]. *)
Inductive seconds : Type :=
| SecInt (n : Z)
| SecFloat (x : Float64.t).

(** What the process has done so far.  [ticks] counts the calls made
    into the environment; the environment answers call number [ticks]. *)
Record world : Type := World {
  ticks : nat;
  stdout : list string;
  fetched : list string;
  posted : list request;
  logfile : string;
  slept : list seconds;
  any_signal : bool
}.

(** The collaborators the script does not define: the exchange client
    together with the data-frame conversion, the HTTP client, the file
    system, the clock, and the text Python prints for a float. *)
Record env : Type := Env {
  exchange_fetch : nat -> string -> string -> Z -> result dataframe;
  requests_post : nat -> request -> result response;
  file_append : nat -> string -> string -> option exn;
  utc_strftime : nat -> string -> string;
  time_time : nat -> Z;
  str_float : Float64.t -> string
}.

Definition str_int (z : Z) : string := NilZero.string_of_int (Z.to_int z).

Definition nl : string := String "010"%char EmptyString.

(** ** State and exceptions *)

Definition M (A : Type) : Type := world -> result A * world.

Definition ret {A : Type} (a : A) : M A := fun w => (Ok a, w).

Definition bind {A B : Type} (m : M A) (k : A -> M B) : M B :=
  fun w =>
    match m w with
    | (Ok a, w') => k a w'
    | (Raise e, w') => (Raise e, w')
    end.

Definition raise {A : Type} (e : exn) : M A := fun w => (Raise e, w).

(** [try: m  except Exception as e: h e] *)
Definition try_except {A : Type} (m : M A) (h : exn -> M A) : M A :=
  fun w =>
    match m w with
    | (Ok a, w') => (Ok a, w')
    | (Raise e, w') => h e w'
    end.

Declare Scope m_scope.
Delimit Scope m_scope with m.
Notation "x <- m ;; k" := (bind m (fun x => k))
  (at level 61, m at next level, right associativity) : m_scope.
Notation "m ;; k" := (bind m (fun _ => k))
  (at level 61, right associativity) : m_scope.

Fixpoint for_each {A : Type} (body : A -> M unit) (l : list A) : M unit :=
  match l with
  | [] => ret tt
  | x :: l' => bind (body x) (fun _ => for_each body l')
  end.

Definition tick (w : world) : world :=
  World (S (ticks w)) (stdout w) (fetched w) (posted w) (logfile w) (slept w)
        (any_signal w).

Definition print (line : string) : M unit :=
  fun w => (Ok tt, World (ticks w) (stdout w ++ [line]) (fetched w) (posted w)
                         (logfile w) (slept w) (any_signal w)).

Definition sleep (s : seconds) : M unit :=
  fun w => (Ok tt, World (ticks w) (stdout w) (fetched w) (posted w)
                         (logfile w) (slept w ++ [s]) (any_signal w)).

Definition set_any_signal (b : bool) : M unit :=
  fun w => (Ok tt, World (ticks w) (stdout w) (fetched w) (posted w)
                         (logfile w) (slept w) b).

Section Bot.

Variable E : env.

(** [datetime.now(timezone.utc).strftime(fmt)] *)
Definition utcnow_strftime (fmt : string) : M string :=
  fun w => (Ok (utc_strftime E (ticks w) fmt), tick w).

(** [int(time.time())] *)
Definition int_time : M Z :=
  fun w => (Ok (time_time E (ticks w)), tick w).

Definition post (r : request) : M response :=
  fun w =>
    (requests_post E (ticks w) r,
     World (S (ticks w)) (stdout w) (fetched w) (posted w ++ [r])
           (logfile w) (slept w) (any_signal w)).

(** [with open(path, "a", encoding="utf-8") as f: f.write(s)] *)
Definition append_file (path s : string) : M unit :=
  fun w =>
    match file_append E (ticks w) path s with
    | Some e => (Raise e, tick w)
    | None =>
        (Ok tt, World (S (ticks w)) (stdout w) (fetched w) (posted w)
                      (logfile w ++ s) (slept w) (any_signal w))
    end.

Definition send_telegram (text : string) : M unit :=
  let url := ("https://api.telegram.org/bot" ++ BOT_TOKEN ++ "/sendMessage")%string in
  let payload := [("chat_id", CHAT_ID); ("text", text); ("parse_mode", "HTML")]%string in
  try_except
    (r <- post (Request url payload 10) ;;
     if negb (status_code r =? 200)
     then print ("Telegram send failed: " ++ str_int (status_code r) ++ " " ++ resp_text r)%string
     else ret tt)%m
    (fun e => print ("Telegram error: " ++ exn_str e)%string).

Definition log_signal (text : string) : M unit :=
  (ts <- utcnow_strftime "%Y-%m-%d %H:%M:%S UTC" ;;
   append_file LOGFILE ("[" ++ ts ++ "] " ++ text ++ nl)%string)%m.

Definition fetch_ohlcv_df (symbol timeframe : string) (limit : Z) : M dataframe :=
  fun w =>
    (exchange_fetch E (ticks w) symbol timeframe limit,
     World (S (ticks w)) (stdout w) (fetched w ++ [symbol]) (posted w)
           (logfile w) (slept w) (any_signal w)).

(** [df.iloc[i]]: positions count from the end when [i] is negative;
    out of bounds is an [IndexError]. *)
Definition iloc (df : dataframe) (i : Z) : result row :=
  let n := Z.of_nat (List.length df) in
  let pos := if i <? 0 then n + i else i in
  if (0 <=? pos) && (pos <? n) then
    match nth_error df (Z.to_nat pos) with
    | Some r => Ok r
    | None => Raise (Exn "IndexError" "single positional indexer is out-of-bounds")
    end
  else Raise (Exn "IndexError" "single positional indexer is out-of-bounds").

Definition lift {A : Type} (r : result A) : M A := fun w => (r, w).

Definition signal : Type := (string * string * Float64.t)%type.

Definition analyze_pair (pair : string) : M (list signal) :=
  fun w =>
    match fetch_ohlcv_df pair TIMEFRAME FETCH_LIMIT w with
    | (Raise e, w') =>
        (print ("[" ++ pair ++ "] fetch error: " ++ exn_str e)%string ;;
         ret [])%m w'
    | (Ok df, w') =>
        (last_closed <- lift (iloc df (-2)) ;;
         let candle :=
           {| open := row_open last_closed;
              high := row_high last_closed;
              low := row_low last_closed;
              close := row_close last_closed |} in
         let signals : list signal := [] in
         if is_hammer_candle candle then
           let price := row_close last_closed in
           ret (signals ++ [("HAMMER"%string, "LONG"%string, price)])
         else if is_shooting_star_candle candle then
           let price := row_close last_closed in
           ret (signals ++ [("SHOOTING_STAR"%string, "SHORT"%string, price)])
         else ret signals)%m w'
    end.

Definition until_boundary (now : Z) : Z :=
  let rem := now mod (15 * 60) in
  if rem =? 0 then 0 else 15 * 60 - rem.

Definition seconds_until_next_15min : M Z :=
  (now <- int_time ;; ret (until_boundary now))%m.

(** The body of [for typ, direction, price in signals]. *)
Definition emit_signal (pair : string) (s : signal) : M unit :=
  let '(typ, direction, price) := s in
  (ts <- utcnow_strftime "%Y-%m-%d %H:%M UTC" ;;
   let msg :=
     if (typ =? "HAMMER")%string then
       ("🟢 <b>Hammer detected</b>" ++ nl ++ "Pair: " ++ pair ++ nl
        ++ "Direction: LONG" ++ nl ++ "Price: " ++ str_float E price ++ nl
        ++ "TF: " ++ TIMEFRAME ++ nl ++ "Time: " ++ ts)%string
     else
       ("🔴 <b>Shooting Star detected</b>" ++ nl ++ "Pair: " ++ pair ++ nl
        ++ "Direction: SHORT" ++ nl ++ "Price: " ++ str_float E price ++ nl
        ++ "TF: " ++ TIMEFRAME ++ nl ++ "Time: " ++ ts)%string in
   print ("[" ++ pair ++ "] SIGNAL -> " ++ typ ++ " @ " ++ str_float E price)%string ;;
   send_telegram msg ;;
   log_signal (pair ++ " | " ++ typ ++ " | " ++ direction ++ " | price="
               ++ str_float E price ++ " | time=" ++ ts)%string)%m.

(** The body of [for pair in PAIRS]. *)
Definition scan_pair (pair : string) : M unit :=
  (try_except
     (signals <- analyze_pair pair ;;
      match signals with
      | _ :: _ =>
          set_any_signal true ;;
          for_each (emit_signal pair) signals
      | [] => print ("[" ++ pair ++ "] No pattern.")%string
      end)
     (fun e => print ("[" ++ pair ++ "] analyze error: " ++ exn_str e)%string) ;;
   sleep (SecFloat INTER_PAIR_DELAY))%m.

Definition scan_pairs (pairs : list string) : M unit :=
  for_each scan_pair pairs.

(** The statements of [main] before the loop. *)
Definition align : M unit :=
  (print ("Starting Hammer/Shooting 15m scanner for: " ++ String.concat ", " PAIRS)%string ;;
   wait0 <- seconds_until_next_15min ;;
   if negb (wait0 =? 0) then
     print ("Aligning to 15m boundary: sleeping " ++ str_int wait0 ++ " seconds...")%string ;;
     sleep (SecInt (wait0 + 1))
   else ret tt)%m.

(** One turn of [while True]. *)
Definition cycle : M unit :=
  (cycle_start <- utcnow_strftime "%Y-%m-%d %H:%M:%S UTC" ;;
   print ("[" ++ cycle_start ++ "] Scanning pairs...")%string ;;
   set_any_signal false ;;
   scan_pairs PAIRS ;;
   to_sleep <- seconds_until_next_15min ;;
   let to_sleep := if to_sleep =? 0 then 15 * 60 else to_sleep in
   print ("Cycle complete. Sleeping " ++ str_int to_sleep
          ++ " seconds until next 15m candle...")%string ;;
   sleep (SecInt (to_sleep + 1)))%m.

(** [main], stopped after [n] turns of its loop. *)
Fixpoint cycles (n : nat) : M unit :=
  match n with
  | O => ret tt
  | S n' => bind cycle (fun _ => cycles n')
  end.

Definition main (n : nat) : M unit := bind align (fun _ => cycles n).

End Bot.

(** ** Auxiliary notions for the statements *)

(** The prices of a row, as [analyze_pair] hands them to the detectors. *)
Definition candle_of_row (r : row) : candle :=
  Candle (row_open r) (row_high r) (row_low r) (row_close r).

(** The signals a closed bar gives rise to. *)
Definition signals_of_row (r : row) : list signal :=
  if is_hammer_candle (candle_of_row r) then
    [("HAMMER"%string, "LONG"%string, row_close r)]
  else if is_shooting_star_candle (candle_of_row r) then
    [("SHOOTING_STAR"%string, "SHORT"%string, row_close r)]
  else [].

(** The text [log_signal] appends for a signal: [sent] is the time of
    writing, [ts] the time of detection. *)
Definition log_line (sent pair typ direction price ts : string) : string :=
  ("[" ++ sent ++ "] " ++ pair ++ " | " ++ typ ++ " | " ++ direction
   ++ " | price=" ++ price ++ " | time=" ++ ts ++ nl)%string.

(** The request [send_telegram] submits for a text. *)
Definition telegram_request (text : string) : request :=
  Request "https://api.telegram.org/bot/sendMessage"
          [("chat_id", CHAT_ID); ("text", text); ("parse_mode", "HTML")]%string
          10.

Definition index_error : exn :=
  Exn "IndexError" "single positional indexer is out-of-bounds".

(** What [send_telegram] prints: nothing after a 200, one line
    otherwise. *)
Definition telegram_report (outcome : result response) : list string :=
  match outcome with
  | Ok r =>
      if status_code r =? 200 then []
      else ["Telegram send failed: " ++ str_int (status_code r) ++ " " ++ resp_text r]%string
  | Raise e => ["Telegram error: " ++ exn_str e]%string
  end.

(** ** Sample data *)

(** open=100, high=100.5, low=90, close=99 *)
Definition hammer_row : row :=
  Row (Float64.of_int 0) (Float64.of_int 100) (Float64.of_scaled 201 (-1))
      (Float64.of_int 90) (Float64.of_int 99) (Float64.of_int 1).

(** open=100, high=101, low=99, close=100 *)
Definition flat_row : row :=
  Row (Float64.of_int 0) (Float64.of_int 100) (Float64.of_int 101)
      (Float64.of_int 99) (Float64.of_int 100) (Float64.of_int 1).

(** An environment that always gives the same answers; the clock
    stands at 1000 seconds and every time is formatted as [fmt]. *)
Definition constant_env (fetch : result dataframe) (post : result response)
    (append : option exn) : env :=
  Env (fun _ _ _ _ => fetch) (fun _ _ => post) (fun _ _ _ => append)
      (fun _ fmt => fmt) (fun _ => 1000) (fun _ => "99.0"%string).

Definition start : world := World 0 [] [] [] EmptyString [] false.

(** ** Theorems *)

(** The two literals are the binary64 values the parser produces for
    [1.8] and [0.6]. *)
Lemma lit_1_8_parsed : Prim2SF 0x1.ccccccccccccdp+0%float = Float64.lit_1_8.
Proof. vm_compute. reflexivity. Qed.

Lemma lit_0_6_parsed : Prim2SF 0x1.3333333333333p-1%float = Float64.lit_0_6.
Proof. vm_compute. reflexivity. Qed.

(** C7: the bar open=100, high=100.5, low=90, close=99 is a Hammer. *)
Theorem hammer_100_1005_90_99 :
  is_hammer_candle
    (Candle (Float64.of_int 100) (Float64.of_scaled 201 (-1))
            (Float64.of_int 90) (Float64.of_int 99)) = true.
Proof. vm_compute. reflexivity. Qed.

(** ** Rounding lemmas *)

(** [iter_pos] is plain iteration. *)
Lemma iter_pos_nat {A} (f : A -> A) (n : positive) (x : A) :
  iter_pos f n x = Nat.iter (Pos.to_nat n) f x.
Proof.
  revert x; induction n as [n IH|n IH|]; intros x; cbn [iter_pos].
  - rewrite !IH, Pos2Nat.inj_xI, <- Nat.iter_add.
    replace (Pos.to_nat n + Pos.to_nat n)%nat with (2 * Pos.to_nat n)%nat by lia.
    now rewrite Nat.iter_succ_r.
  - rewrite !IH, Pos2Nat.inj_xO, <- Nat.iter_add.
    now replace (Pos.to_nat n + Pos.to_nat n)%nat with (2 * Pos.to_nat n)%nat by lia.
  - reflexivity.
Qed.

Lemma shr_1_nonneg m r s :
  0 <= m ->
  shr_1 (Build_shr_record m r s) = Build_shr_record (m / 2) (Z.odd m) (r || s).
Proof.
  intros Hm. rewrite <- Z.div2_div.
  destruct m as [|[p|p|]|p]; try reflexivity; lia.
Qed.

Lemma shifted_0 M : shifted M 0 = Build_shr_record M false false.
Proof.
  unfold shifted. rewrite Z.pow_0_r, Z.div_1_r, Z.mod_1_r. reflexivity.
Qed.

Lemma shifted_succ M k :
  0 <= M -> 0 <= k -> shr_1 (shifted M k) = shifted M (k + 1).
Proof.
  intros HM Hk. unfold shifted.
  assert (Hp : 0 < 2 ^ k) by (apply Z.pow_pos_nonneg; lia).
  rewrite shr_1_nonneg by (apply Z.div_pos; lia).
  rewrite Z.pow_add_r, Z.pow_1_r by lia.
  set (a := 2 ^ k) in *.
  pose proof (Z.mod_pos_bound M a Hp) as HR.
  pose proof (Z.div_mod M a ltac:(lia)) as HD.
  set (q := M / a) in *. set (R := M mod a) in *.
  pose proof (Z.div_mod q 2 ltac:(lia)) as HQ.
  pose proof (Z.mod_pos_bound q 2 ltac:(lia)) as HQ2.
  assert (Hdiv : M / (a * 2) = q / 2).
  { unfold q. rewrite Z.div_div by lia. reflexivity. }
  assert (Hmod : M mod (a * 2) = R + a * (q mod 2)).
  { symmetry. apply Z.mod_unique with (q := q / 2); [left; nia | nia ]. }
  rewrite Hdiv, Hmod. f_equal.
  - rewrite Zodd_mod. 
    destruct (Z.eqb_spec (q mod 2) 1) as [E|E]; symmetry.
    + apply Z.leb_le. nia.
    + apply Z.leb_gt. assert (q mod 2 = 0) by lia. nia.
  - assert (Hs : (2 * (R + a * (q mod 2))) mod (a * 2) = 2 * R).
    { symmetry. apply Z.mod_unique with (q := q mod 2); [left; nia | nia]. }
    rewrite Hs.
    destruct (Z.eqb_spec R 0) as [E|E].
    + rewrite E. replace (2 * 0) with 0 by lia. rewrite Z.mod_0_l by lia.
      replace (a <=? 0) with false by (symmetry; apply Z.leb_gt; lia).
      reflexivity.
    + replace (2 * R =? 0) with false by (symmetry; apply Z.eqb_neq; lia).
      destruct (Z.leb_spec a (2 * R)) as [L|L]; [reflexivity|].
      rewrite Z.mod_small by lia.
      replace (2 * R =? 0) with false by (symmetry; apply Z.eqb_neq; lia).
      reflexivity.
Qed.

Lemma iter_shr_1_shifted M (k : nat) :
  0 <= M ->
  Nat.iter k shr_1 (Build_shr_record M false false) = shifted M (Z.of_nat k).
Proof.
  intros HM. induction k as [|k IH].
  - now rewrite shifted_0.
  - rewrite Nat.iter_succ, IH, shifted_succ by lia. f_equal. lia.
Qed.

Lemma shr_shifted M e n :
  0 <= M -> 0 <= n ->
  shr (Build_shr_record M false false) e n = (shifted M n, e + n).
Proof.
  intros HM Hn. destruct n as [|p|p]; try lia.
  - now rewrite shifted_0, Z.add_0_r.
  - cbn [shr]. rewrite iter_pos_nat, iter_shr_1_shifted by assumption.
    now rewrite positive_nat_Z.
Qed.

Lemma digits2_pos_bounds p :
  2 ^ (Zpos (digits2_pos p) - 1) <= Zpos p < 2 ^ Zpos (digits2_pos p).
Proof.
  induction p as [p IH|p IH|]; cbn [digits2_pos].
  - rewrite Pos2Z.inj_succ. replace (Z.succ (Zpos (digits2_pos p)) - 1) with (Z.pos (digits2_pos p) - 1 + 1) by lia.
    rewrite Z.pow_succ_r, Z.pow_add_r, Z.pow_1_r by lia. lia.
  - rewrite Pos2Z.inj_succ. replace (Z.succ (Zpos (digits2_pos p)) - 1) with (Z.pos (digits2_pos p) - 1 + 1) by lia.
    rewrite Z.pow_succ_r, Z.pow_add_r, Z.pow_1_r by lia. lia.
  - cbn. lia.
Qed.

Lemma Zdigits2_bounds M :
  0 < M -> 0 < Zdigits2 M /\ 2 ^ (Zdigits2 M - 1) <= M < 2 ^ Zdigits2 M.
Proof.
  destruct M as [|p|p]; try lia. intros _. cbn [Zdigits2].
  split; [lia | apply digits2_pos_bounds].
Qed.

Lemma Zdigits2_le M k :
  0 <= M -> 0 <= k -> M < 2 ^ k -> Zdigits2 M <= k.
Proof.
  intros H0 Hk Hlt. destruct (Z.eq_dec M 0) as [->|Hne]; [cbn; lia|].
  destruct (Zdigits2_bounds M ltac:(lia)) as [Hd [Hlo _]].
  destruct (Z.le_gt_cases (Zdigits2 M) k) as [|Hgt]; [assumption|exfalso].
  assert (2 ^ k <= 2 ^ (Zdigits2 M - 1)) by (apply Z.pow_le_mono_r; lia).
  lia.
Qed.

Lemma rnd_m_eq M n : rnd_m M n = M / 2 ^ n + (if round_up M n then 1 else 0).
Proof.
  unfold rnd_m, round_up, shifted. cbn [shr_m loc_of_shr_record].
  destruct (2 ^ n <=? 2 * (M mod 2 ^ n)),
           ((2 * (M mod 2 ^ n)) mod 2 ^ n =? 0); cbn [negb orb andb round_nearest_even];
    rewrite <- ?Z.negb_odd; try destruct (Z.odd (M / 2 ^ n)); cbn [negb]; lia.
Qed.

Lemma rnd_m_bounds M n :
  0 <= M -> M / 2 ^ n <= rnd_m M n <= M / 2 ^ n + 1.
Proof. intros. rewrite rnd_m_eq. destruct (round_up M n); lia. Qed.

(** Rounding to nearest even is monotone, also across two different
    shift amounts. *)
Lemma rnd_m_mono M1 n1 M2 n2 :
  0 <= M1 -> 0 <= M2 -> 0 <= n1 -> 0 <= n2 ->
  M1 * 2 ^ n2 <= M2 * 2 ^ n1 ->
  rnd_m M1 n1 <= rnd_m M2 n2.
Proof.
  intros HM1 HM2 Hn1 Hn2 Hle.
  assert (Ha : 0 < 2 ^ n1) by (apply Z.pow_pos_nonneg; lia).
  assert (Hb : 0 < 2 ^ n2) by (apply Z.pow_pos_nonneg; lia).
  rewrite !rnd_m_eq. unfold round_up.
  set (a := 2 ^ n1) in *. set (b := 2 ^ n2) in *.
  pose proof (Z.mod_pos_bound M1 a Ha) as HR1.
  pose proof (Z.mod_pos_bound M2 b Hb) as HR2.
  pose proof (Z.div_mod M1 a ltac:(lia)) as HD1.
  pose proof (Z.div_mod M2 b ltac:(lia)) as HD2.
  set (q1 := M1 / a) in *. set (R1 := M1 mod a) in *.
  set (q2 := M2 / b) in *. set (R2 := M2 mod b) in *.
  assert (Hab : 0 < a * b) by nia.
  assert (Hle' : a * b * q1 + R1 * b <= a * b * q2 + R2 * a).
  { rewrite HD1, HD2 in Hle. lia. }
  assert (HR2' : R2 * a < a * b) by nia.
  assert (HR1' : 0 <= R1 * b) by nia.
  assert (Hq : q1 <= q2) by nia.
  destruct (Z.eq_dec q1 q2) as [Heq|Hne].
  2:{ destruct (_ && _), (_ && _); lia. }
  rewrite <- Heq.
  assert (HR : R1 * b <= R2 * a) by (rewrite <- Heq in Hle'; lia).
  destruct (Z.leb_spec a (2 * R1)) as [L1|L1]; cbn [andb].
  2:{ destruct (_ && _); lia. }
  assert (L2 : b <= 2 * R2) by nia.
  replace (b <=? 2 * R2) with true by (symmetry; apply Z.leb_le; lia).
  cbn [andb].
  destruct (Z.odd q1); [rewrite !orb_true_r; lia|]. rewrite !orb_false_r.
  destruct (Z.eqb_spec ((2 * R1) mod a) 0) as [E1|E1]; cbn [negb].
  { destruct (negb _); lia. }
  assert (G1 : a < 2 * R1).
  { destruct (Z.eq_dec a (2 * R1)) as [E|E]; [|lia].
    exfalso. apply E1. rewrite <- E. apply Z.mod_same. lia. }
  assert (G2 : b < 2 * R2) by nia.
  assert (E2 : (2 * R2) mod b = 2 * R2 - b).
  { symmetry. apply Z.mod_unique with (q := 1); [left; lia | lia]. }
  rewrite E2.
  replace (2 * R2 - b =? 0) with false by (symmetry; apply Z.eqb_neq; lia).
  cbn [negb]. lia.
Qed.

Lemma fexp_eq x : fexp Float64.prec Float64.emax x = Z.max (x - 53) (-1074).
Proof. reflexivity. Qed.

Lemma pow2_53 : 2 ^ 53 = 9007199254740992.
Proof. reflexivity. Qed.

Lemma rnd_m_range M E :
  0 < M ->
  let n := fexp Float64.prec Float64.emax (Zdigits2 M + E) - E in
  0 <= n ->
  0 <= rnd_m M n <= 2 ^ 53.
Proof.
  intros HM n Hn.
  destruct (Zdigits2_bounds M HM) as [Hd [Hlo Hhi]].
  assert (Hp : 0 < 2 ^ n) by (apply Z.pow_pos_nonneg; lia).
  pose proof (rnd_m_bounds M n ltac:(lia)) as Hb.
  assert (0 <= M / 2 ^ n) by (apply Z.div_pos; lia).
  assert (M / 2 ^ n < 2 ^ 53).
  { apply Z.div_lt_upper_bound; [lia|].
    rewrite <- Z.pow_add_r by lia.
    apply Z.lt_le_trans with (1 := Hhi).
    apply Z.pow_le_mono_r; [lia|].
    unfold n. rewrite fexp_eq. lia. }
  lia.
Qed.

Lemma rnd_m_normal M E :
  0 < M ->
  let n := fexp Float64.prec Float64.emax (Zdigits2 M + E) - E in
  0 <= n -> -1074 < fexp Float64.prec Float64.emax (Zdigits2 M + E) ->
  2 ^ 52 <= rnd_m M n.
Proof.
  intros HM n Hn Hnorm.
  destruct (Zdigits2_bounds M HM) as [Hd [Hlo Hhi]].
  assert (Hp : 0 < 2 ^ n) by (apply Z.pow_pos_nonneg; lia).
  pose proof (rnd_m_bounds M n ltac:(lia)) as Hb.
  assert (En : n = Zdigits2 M - 53) by (unfold n in *; rewrite fexp_eq in *; lia).
  assert (2 ^ 52 <= M / 2 ^ n).
  { apply Z.div_le_lower_bound; [lia|].
    rewrite <- Z.pow_add_r by lia.
    replace (n + 52) with (Zdigits2 M - 1) by lia. exact Hlo. }
  lia.
Qed.

Lemma binary_round_aux_pos s M E :
  0 < M ->
  let e1 := fexp Float64.prec Float64.emax (Zdigits2 M + E) in
  E <= e1 ->
  binary_round_aux Float64.prec Float64.emax s M E loc_Exact = finish s (rnd_m M (e1 - E)) e1.
Proof.
  intros HM e1 He.
  pose proof (rnd_m_range M E HM ltac:(fold e1; lia)) as Hq. fold e1 in Hq.
  unfold binary_round_aux, shr_fexp at 1. fold e1.
  cbn [shr_record_of_loc].
  rewrite shr_shifted by lia.
  replace (E + (e1 - E)) with e1 by lia.
  change (round_nearest_even _ _) with (rnd_m M (e1 - E)).
  set (q := rnd_m M (e1 - E)) in *.
  assert (Hemin : -1074 <= e1) by (unfold e1; rewrite fexp_eq; lia).
  unfold finish, shr_fexp. cbn [shr_record_of_loc]. rewrite fexp_eq.
  change (2 ^ Float64.prec) with (2 ^ 53).
  destruct (Z.eqb_spec q (2 ^ 53)) as [Eq|Nq].
  - rewrite Eq.
    change (Zdigits2 (2 ^ 53)) with 54.
    replace (Z.max (54 + e1 - 53) (-1074) - e1) with 1 by lia.
    reflexivity.
  - assert (Hd : Zdigits2 q <= 53) by (apply Zdigits2_le; lia).
    assert (Hn : Z.max (Zdigits2 q + e1 - 53) (-1074) - e1 <= 0) by lia.
    destruct (Z.max (Zdigits2 q + e1 - 53) (-1074) - e1) as [|p|p]; try lia;
      reflexivity.
Qed.


(** Order of the positive results, read on (exponent, mantissa). *)
Lemma SFltb_finish_shape s q e :
  0 <= q ->
  finish s q e =
    if q =? 0 then S754_zero s
    else if (if q =? 2 ^ 53 then e + 1 else e) <=? 971
         then S754_finite s (Z.to_pos (if q =? 2 ^ 53 then 2 ^ 52 else q))
                (if q =? 2 ^ 53 then e + 1 else e)
         else S754_infinity s.
Proof.
  intros Hq. unfold finish.
  change (2 ^ Float64.prec) with (2 ^ 53). change (2 ^ (Float64.prec - 1)) with (2 ^ 52).
  change (Float64.emax - Float64.prec) with 971.
  destruct (Z.eqb_spec q (2 ^ 53)) as [E|E].
  - rewrite E. reflexivity.
  - destruct q as [|p|p]; try lia; reflexivity.
Qed.

Lemma SFltb_fin_pos m1 e1 m2 e2 :
  SFltb (S754_finite false m1 e1) (S754_finite false m2 e2) = true ->
  e1 < e2 \/ (e1 = e2 /\ Zpos m1 < Zpos m2).
Proof.
  unfold SFltb, SFcompare.
  change (Pos.compare_cont Eq m1 m2) with (Pos.compare m1 m2).
  destruct (Z.compare_spec e1 e2); try discriminate; [|lia].
  destruct (Pos.compare_spec m1 m2); try discriminate. lia.
Qed.

Lemma finish_mono q1 e1 q2 e2 :
  0 <= q1 <= 2 ^ 53 -> 0 <= q2 <= 2 ^ 53 ->
  (e1 < e2 /\ 2 ^ 52 <= q2) \/ (e1 = e2 /\ q1 <= q2) ->
  SFltb (finish false q2 e2) (finish false q1 e1) = false.
Proof.
  intros H1 H2 H.
  rewrite !SFltb_finish_shape by lia.
  assert (HP : 2 ^ 53 = 2 * 2 ^ 52) by reflexivity.
  assert (HP0 : 0 < 2 ^ 52) by reflexivity.
  set (P := 2 ^ 52) in *. rewrite HP in *. clear HP. clearbody P.
  destruct (Z.eqb_spec q2 0) as [Z2|Z2].
  { destruct (Z.eqb_spec q1 0) as [Z1|Z1]; [reflexivity|lia]. }
  destruct (Z.eqb_spec q1 0) as [Z1|Z1].
  { destruct (_ <=? _); reflexivity. }
  destruct (Z.leb_spec (if q2 =? 2 * P then e2 + 1 else e2) 971) as [L2|L2].
  2:{ destruct (_ <=? _); reflexivity. }
  destruct (Z.leb_spec (if q1 =? 2 * P then e1 + 1 else e1) 971) as [L1|L1].
  2:{ exfalso. revert L1 L2.
      destruct (Z.eqb_spec q1 (2 * P)), (Z.eqb_spec q2 (2 * P)); lia. }
  destruct (SFltb _ _) eqn:Hlt; [exfalso|reflexivity].
  apply SFltb_fin_pos in Hlt.
  rewrite !Z2Pos.id in Hlt.
  - revert Hlt. destruct (Z.eqb_spec q1 (2 * P)), (Z.eqb_spec q2 (2 * P)); lia.
  - destruct (Z.eqb_spec q1 (2 * P)); lia.
  - destruct (Z.eqb_spec q2 (2 * P)); lia.
Qed.

Lemma binary_round_aux_mono M1 E1 M2 E2 :
  0 < M1 -> 0 < M2 ->
  E1 <= fexp Float64.prec Float64.emax (Zdigits2 M1 + E1) ->
  E2 <= fexp Float64.prec Float64.emax (Zdigits2 M2 + E2) ->
  M1 * 2 ^ (E1 - Z.min E1 E2) <= M2 * 2 ^ (E2 - Z.min E1 E2) ->
  SFltb (binary_round_aux Float64.prec Float64.emax false M2 E2 loc_Exact)
        (binary_round_aux Float64.prec Float64.emax false M1 E1 loc_Exact) = false.
Proof.
  intros HM1 HM2 HE1 HE2 Hle.
  rewrite !binary_round_aux_pos by assumption.
  pose proof (rnd_m_range M1 E1 HM1 ltac:(lia)) as R1.
  pose proof (rnd_m_range M2 E2 HM2 ltac:(lia)) as R2.
  cbv zeta in R1, R2.
  destruct (Zdigits2_bounds M1 HM1) as [Hd1 [Hlo1 Hhi1]].
  destruct (Zdigits2_bounds M2 HM2) as [Hd2 [Hlo2 Hhi2]].
  set (d1 := Zdigits2 M1) in *. set (d2 := Zdigits2 M2) in *.
  set (a1 := E1 - Z.min E1 E2) in *. set (a2 := E2 - Z.min E1 E2) in *.
  assert (Ha1 : 0 <= a1) by (unfold a1; lia).
  assert (Ha2 : 0 <= a2) by (unfold a2; lia).
  assert (Hmag : d1 + E1 <= d2 + E2).
  { assert (Hlt : 2 ^ (d1 - 1 + a1) < 2 ^ (d2 + a2)).
    { rewrite !Z.pow_add_r by lia.
      assert (0 < 2 ^ a1) by (apply Z.pow_pos_nonneg; lia).
      assert (0 < 2 ^ a2) by (apply Z.pow_pos_nonneg; lia).
      apply Z.le_lt_trans with (M1 * 2 ^ a1); [nia|].
      apply Z.le_lt_trans with (M2 * 2 ^ a2); [assumption|nia]. }
    apply Z.pow_lt_mono_r_iff in Hlt; unfold a1, a2 in *; lia. }
  apply finish_mono; try assumption.
  set (e1 := fexp Float64.prec Float64.emax (d1 + E1)) in *.
  set (e2 := fexp Float64.prec Float64.emax (d2 + E2)) in *.
  assert (He : e1 <= e2) by (unfold e1, e2; rewrite !fexp_eq; lia).
  assert (Hm1 : -1074 <= e1) by (unfold e1; rewrite fexp_eq; lia).
  destruct (Z.eq_dec e1 e2) as [Heq|Hne]; [right|left]; split; try lia.
  - apply rnd_m_mono; try lia.
    set (k := e1 - Z.max E1 E2).
    assert (Hk : 0 <= k) by (unfold k; lia).
    replace (e2 - E2) with (a1 + k) by (unfold a1, k; lia).
    replace (e1 - E1) with (a2 + k) by (unfold a2, k; lia).
    rewrite !Z.pow_add_r by lia.
    assert (0 < 2 ^ k) by (apply Z.pow_pos_nonneg; lia).
    rewrite !Z.mul_assoc. apply Z.mul_le_mono_nonneg_r; lia.
  - apply (rnd_m_normal M2 E2 HM2); fold d2; fold e2; lia.
Qed.

Lemma Zdigits2_ge_53 (m c : positive) :
  2 ^ 52 <= Zpos c -> 53 <= Zdigits2 (Zpos (m * c)).
Proof.
  intros Hc.
  destruct (Zdigits2_bounds (Zpos (m * c)) ltac:(lia)) as [Hd [_ Hhi]].
  destruct (Z.le_gt_cases 53 (Zdigits2 (Zpos (m * c)))) as [|Hlt]; [assumption|exfalso].
  assert (2 ^ Zdigits2 (Zpos (m * c)) <= 2 ^ 52) by (apply Z.pow_le_mono_r; lia).
  assert (Zpos c <= Zpos (m * c)) by nia.
  lia.
Qed.

Lemma mul_lits_ordered m e :
  SFltb (SFmul Float64.prec Float64.emax (S754_finite false m e) (S754_finite false 8106479329266893%positive (-52)))
        (SFmul Float64.prec Float64.emax (S754_finite false m e) (S754_finite false 5404319552844595%positive (-53))) = false.
Proof.
  cbn [SFmul xorb].
  apply binary_round_aux_mono; try lia.
  - pose proof (Zdigits2_ge_53 m 5404319552844595%positive ltac:(vm_compute; discriminate)).
    rewrite fexp_eq. lia.
  - pose proof (Zdigits2_ge_53 m 8106479329266893%positive ltac:(vm_compute; discriminate)).
    rewrite fexp_eq. lia.
  - replace (Z.min (e + -53) (e + -52)) with (e + -53) by lia.
    replace (e + -53 - (e + -53)) with 0 by lia.
    replace (e + -52 - (e + -53)) with 1 by lia.
    rewrite Z.pow_0_r, Z.pow_1_r.     rewrite !Pos2Z.inj_mul. lia.
Qed.

Lemma SFltb_trans x y z :
  SFltb x y = true -> SFltb y z = true -> SFltb x z = true.
Proof.
  unfold SFltb, SFcompare.
  destruct x as [sx|sx| |sx mx ex], y as [sy|sy| |sy my ey], z as [sz|sz| |sz mz ez];
    try destruct sx; try destruct sy; try destruct sz;
    try discriminate; try reflexivity;
    change (Pos.compare_cont Eq ?a ?b) with (Pos.compare a b);
    destruct (Z.compare_spec ex ey), (Z.compare_spec ey ez), (Z.compare_spec ex ez);
    try discriminate; try reflexivity; try lia;
    destruct (Pos.compare_spec mx my), (Pos.compare_spec my mz), (Pos.compare_spec mx mz);
    cbn [CompOpp]; try discriminate; try reflexivity; lia.
Qed.

Lemma products_ordered b :
  SFltb (SFmul Float64.prec Float64.emax (SFabs b) (S754_finite false 8106479329266893%positive (-52)))
        (SFmul Float64.prec Float64.emax (SFabs b) (S754_finite false 5404319552844595%positive (-53))) = false.
Proof.
  destruct b as [s|s| |s m e]; try reflexivity.
  apply mul_lits_ordered.
Qed.

(** ** The pattern detectors *)

(** Whatever the body, [body * 1.8] is never below [body * 0.6]. *)
Lemma body_products_ordered (x : Float64.t) :
  (Float64.abs x * Float64.lit_1_8 <? Float64.abs x * Float64.lit_0_6)%f64 = false.
Proof. apply products_ordered. Qed.

(** Both detectors read the same three quantities of the candle. *)
Lemma is_hammer_candle_eq c :
  is_hammer_candle c =
  negb (candle_body c == Float64.of_int 0)%f64
  && ((lower_wick c >? candle_body c * Float64.lit_1_8)%f64
      && (upper_wick c <? candle_body c * Float64.lit_0_6)%f64).
Proof.
  unfold is_hammer_candle, candle_body, lower_wick, upper_wick. cbv zeta.
  destruct (_ == _)%f64; reflexivity.
Qed.

Lemma is_shooting_star_candle_eq c :
  is_shooting_star_candle c =
  negb (candle_body c == Float64.of_int 0)%f64
  && ((upper_wick c >? candle_body c * Float64.lit_1_8)%f64
      && (lower_wick c <? candle_body c * Float64.lit_0_6)%f64).
Proof.
  unfold is_shooting_star_candle, candle_body, lower_wick, upper_wick. cbv zeta.
  destruct (_ == _)%f64; reflexivity.
Qed.

(** No candle, of any binary64 content (NaN, infinities and zero bodies
    included), is both a Hammer and a Shooting Star. *)
Theorem hammer_star_exclusive c :
  is_hammer_candle c && is_shooting_star_candle c = false.
Proof.
  rewrite is_hammer_candle_eq, is_shooting_star_candle_eq.
  destruct (negb _); [cbn [andb]|reflexivity].
  destruct (lower_wick c >? _)%f64 eqn:H1; [cbn [andb]|reflexivity].
  destruct (upper_wick c <? _)%f64 eqn:H2; [cbn [andb]|reflexivity].
  destruct (upper_wick c >? _)%f64 eqn:H3; [cbn [andb]|reflexivity].
  destruct (lower_wick c <? _)%f64 eqn:H4; [exfalso|reflexivity].
  pose proof (SFltb_trans _ _ _ H1 H4) as Hlt.
  unfold candle_body in Hlt.
  pose proof (body_products_ordered (close c - open c)%f64) as Hord.
  unfold Float64.ltb in Hord. congruence.
Qed.

Lemma sub_nan_l y : (S754_nan - y)%f64 = S754_nan.
Proof. reflexivity. Qed.

Lemma sub_nan_r x : (x - S754_nan)%f64 = S754_nan.
Proof. destruct x; reflexivity. Qed.

Lemma ltb_nan_l y : (S754_nan <? y)%f64 = false.
Proof. reflexivity. Qed.

Lemma ltb_nan_r x : (x <? S754_nan)%f64 = false.
Proof. destruct x; reflexivity. Qed.

Lemma nan_body_no_pattern c :
  candle_body c = S754_nan ->
  is_hammer_candle c = false /\ is_shooting_star_candle c = false.
Proof.
  intros Hb. rewrite is_hammer_candle_eq, is_shooting_star_candle_eq, Hb.
  unfold Float64.gtb. change (S754_nan * ?x)%f64 with S754_nan.
  fold (Float64.ltb S754_nan (lower_wick c)).
  fold (Float64.ltb S754_nan (upper_wick c)).
  rewrite !ltb_nan_l. split; reflexivity.
Qed.

(** A candle with a NaN among its four prices matches no pattern. *)
Theorem nan_candle_no_pattern c :
  is_nan (open c) || is_nan (high c) || is_nan (low c) || is_nan (close c) = true ->
  is_hammer_candle c = false /\ is_shooting_star_candle c = false.
Proof.
  intros H.
  destruct (is_nan (open c)) eqn:Ho.
  { apply nan_body_no_pattern. unfold candle_body.
    destruct (open c); try discriminate. now rewrite sub_nan_r. }
  destruct (is_nan (close c)) eqn:Hc.
  { apply nan_body_no_pattern. unfold candle_body.
    destruct (close c); try discriminate. reflexivity. }
  rewrite is_hammer_candle_eq, is_shooting_star_candle_eq.
  destruct (is_nan (high c)) eqn:Hh.
  - assert (Hu : upper_wick c = S754_nan).
    { unfold upper_wick. destruct (high c); try discriminate. reflexivity. }
    rewrite Hu. unfold Float64.gtb. rewrite ltb_nan_l, ltb_nan_r.
    rewrite !andb_false_r. split; reflexivity.
  - destruct (is_nan (low c)) eqn:Hl; [|discriminate].
    assert (Hw : lower_wick c = S754_nan).
    { unfold lower_wick. destruct (low c); try discriminate. apply sub_nan_r. }
    rewrite Hw. unfold Float64.gtb. rewrite ltb_nan_l, ltb_nan_r.
    rewrite !andb_false_r. split; reflexivity.
Qed.

Lemma sub_equal x y :
  (x == y)%f64 = true ->
  exists s, (y - x)%f64 = S754_zero s \/ (y - x)%f64 = S754_nan.
Proof.
  unfold Float64.eqb, SFeqb, SFcompare.
  destruct x as [sx|sx| |sx mx ex], y as [sy|sy| |sy my ey];
    try destruct sx; try destruct sy; try discriminate; intros H;
    try (exists false; left; reflexivity);
    try (exists true; left; reflexivity);
    try (exists false; right; reflexivity).
  all: change (Pos.compare_cont Eq ?a ?b) with (Pos.compare a b) in H.
  all: destruct (Z.compare_spec ex ey) as [He|He|He]; try discriminate.
  all: destruct (Pos.compare_spec mx my) as [Hm|Hm|Hm]; try discriminate.
  all: subst; exists false; left.
  all: unfold Float64.sub, SFsub; rewrite Z.sub_diag; reflexivity.
Qed.

(** A candle whose open equals its close (a doji) matches no pattern. *)
Theorem flat_candle_no_pattern c :
  (open c == close c)%f64 = true ->
  is_hammer_candle c = false /\ is_shooting_star_candle c = false.
Proof.
  intros H. destruct (sub_equal _ _ H) as [s [Hz|Hn]].
  - rewrite is_hammer_candle_eq, is_shooting_star_candle_eq.
    unfold candle_body. rewrite Hz. split; reflexivity.
  - apply nan_body_no_pattern. unfold candle_body. now rewrite Hn.
Qed.

Lemma product_sign x (c : positive) (ec : Z) :
  match (Float64.abs x * S754_finite false c ec)%f64 with
  | S754_zero s | S754_infinity s | S754_finite s _ _ => s = false
  | S754_nan => True
  end.
Proof.
  destruct x as [s|s| |s m e]; cbn; trivial.
  unfold binary_round_aux.
  destruct (shr_fexp _ _ _ _ _) as [mrs' e'].
  destruct (shr_fexp _ _ _ _ _) as [mrs'' e''].
  destruct (shr_m mrs''); trivial.
  destruct (_ <=? _); trivial.
Qed.

Lemma above_product_positive x (c : positive) (ec : Z) y :
  (y >? Float64.abs x * S754_finite false c ec)%f64 = true ->
  (y >? Float64.of_int 0)%f64 = true.
Proof.
  pose proof (product_sign x c ec) as Hs.
  unfold Float64.gtb, Float64.ltb, SFltb.
  destruct (Float64.abs x * _)%f64 as [s|s| |s m e]; subst;
    destruct y as [sy|sy| |sy my ey]; try destruct sy; cbn;
    try discriminate; try reflexivity.
  all: destruct (e ?= ey); try discriminate;
    destruct (Pos.compare_cont Eq m my); discriminate.
Qed.

(** A Hammer has a strictly positive lower wick and a Shooting Star a
    strictly positive upper wick. *)
Theorem pattern_wick_positive c :
  (is_hammer_candle c = true -> (lower_wick c >? Float64.of_int 0)%f64 = true)
  /\ (is_shooting_star_candle c = true -> (upper_wick c >? Float64.of_int 0)%f64 = true).
Proof.
  rewrite is_hammer_candle_eq, is_shooting_star_candle_eq.
  split; intros H; apply andb_prop in H; destruct H as [_ H];
    apply andb_prop in H; destruct H as [H _];
    eapply above_product_positive; exact H.
Qed.

(** ** The candle boundary *)

Lemma until_boundary_cases now :
  (now mod 900 = 0 /\ until_boundary now = 0)
  \/ (0 < now mod 900 < 900 /\ until_boundary now = 900 - now mod 900).
Proof.
  unfold until_boundary. change (15 * 60) with 900.
  pose proof (Z.mod_pos_bound now 900 ltac:(lia)).
  destruct (Z.eqb_spec (now mod 900) 0); [left|right]; lia.
Qed.

(** The wait is shorter than one candle and ends on a boundary. *)
Theorem until_boundary_aligned now :
  0 <= until_boundary now < 900 /\ (now + until_boundary now) mod 900 = 0.
Proof.
  destruct (until_boundary_cases now) as [[Hr ->]|[Hr ->]].
  - rewrite Z.add_0_r. lia.
  - split; [lia|].
    pose proof (Z.div_mod now 900 ltac:(lia)) as Hd.
    replace (now + (900 - now mod 900)) with ((now / 900 + 1) * 900) by lia.
    apply Z.mod_mul. lia.
Qed.

(** The wait reaches the next boundary: no earlier moment from [now] on
    is a multiple of 900. *)
Theorem until_boundary_least now v :
  0 <= v -> (now + v) mod 900 = 0 -> until_boundary now <= v.
Proof.
  intros Hv Hz.
  destruct (until_boundary_cases now) as [[Hr ->]|[Hr ->]]; [lia|].
  destruct (Z.le_gt_cases (900 - now mod 900) v) as [|Hlt]; [assumption|exfalso].
  pose proof (Z.div_mod now 900 ltac:(lia)) as Hd.
  assert (Hm : (now + v) mod 900 = now mod 900 + v).
  { symmetry. apply Z.mod_unique with (q := now / 900); [left; lia | lia]. }
  lia.
Qed.

(** The sleep between two cycles, as [main] computes it from the wait,
    is at least one second, at most a whole candle, and ends on a
    boundary. *)
Theorem cycle_sleep_positive now :
  let to_sleep := until_boundary now in
  let to_sleep := if to_sleep =? 0 then 15 * 60 else to_sleep in
  1 <= to_sleep <= 900 /\ (now + to_sleep) mod 900 = 0.
Proof.
  cbv zeta. change (15 * 60) with 900.
  pose proof (until_boundary_aligned now) as [Hb Ha].
  destruct (Z.eqb_spec (until_boundary now) 0) as [Hz|Hz].
  - rewrite Hz, Z.add_0_r in Ha. split; [lia|].
    rewrite <- Z.add_mod_idemp_l, Ha by lia. reflexivity.
  - split; [lia|assumption].
Qed.

(** ** The scanner *)

Section BotProperties.

Variable E : env.

Lemma iloc_last_closed older r newest :
  iloc (older ++ [r; newest]) (-2) = Ok r.
Proof.
  unfold iloc. rewrite length_app. cbn [List.length].
  change (-2 <? 0) with true. cbv iota.
  set (n := List.length older).
  replace (Z.of_nat (n + 2) + -2) with (Z.of_nat n) by lia.
  replace (0 <=? Z.of_nat n) with true by (symmetry; apply Z.leb_le; lia).
  replace (Z.of_nat n <? Z.of_nat (n + 2)) with true by (symmetry; apply Z.ltb_lt; lia).
  cbn [andb]. rewrite Nat2Z.id, nth_error_app2 by (unfold n; lia).
  unfold n. rewrite Nat.sub_diag. reflexivity.
Qed.

Lemma iloc_short df :
  (List.length df < 2)%nat -> iloc df (-2) = Raise index_error.
Proof.
  intros H. unfold iloc. change (-2 <? 0) with true. cbv iota.
  replace (0 <=? Z.of_nat (List.length df) + -2) with false
    by (symmetry; apply Z.leb_gt; lia).
  reflexivity.
Qed.

Lemma iloc_raises df i e : iloc df i = Raise e -> e = index_error.
Proof.
  unfold iloc, index_error.
  destruct (_ && _); [destruct (nth_error _ _)|]; congruence.
Qed.

(** [analyze_pair], case by case. *)
Lemma analyze_pair_eq pair w :
  analyze_pair E pair w =
  match exchange_fetch E (ticks w) pair TIMEFRAME FETCH_LIMIT with
  | Raise e =>
      (Ok [],
       World (S (ticks w))
             (stdout w ++ ["[" ++ pair ++ "] fetch error: " ++ exn_str e]%string)
             (fetched w ++ [pair]) (posted w) (logfile w) (slept w) (any_signal w))
  | Ok df =>
      (match iloc df (-2) with
       | Ok r => Ok (signals_of_row r)
       | Raise e => Raise e
       end,
       World (S (ticks w)) (stdout w) (fetched w ++ [pair]) (posted w)
             (logfile w) (slept w) (any_signal w))
  end.
Proof.
  unfold analyze_pair, fetch_ohlcv_df.
  destruct (exchange_fetch E (ticks w) pair TIMEFRAME FETCH_LIMIT) as [df|e].
  - unfold bind, lift. destruct (iloc df (-2)) as [r|e]; [|reflexivity].
    unfold signals_of_row, candle_of_row.
    destruct (is_hammer_candle _); [reflexivity|].
    destruct (is_shooting_star_candle _); reflexivity.
  - reflexivity.
Qed.

(** A failed fetch is swallowed inside [analyze_pair]: it returns the
    empty list, having printed one line and nothing else. *)
Theorem analyze_pair_fetch_error pair w e :
  exchange_fetch E (ticks w) pair TIMEFRAME FETCH_LIMIT = Raise e ->
  analyze_pair E pair w =
  (Ok [],
   World (S (ticks w))
         (stdout w ++ ["[" ++ pair ++ "] fetch error: " ++ exn_str e]%string)
         (fetched w ++ [pair]) (posted w) (logfile w) (slept w) (any_signal w)).
Proof. intros H. rewrite analyze_pair_eq, H. reflexivity. Qed.

(** With two bars or more, the signals are those of the bar before the
    newest one; no other bar is looked at. *)
Theorem analyze_pair_last_closed pair w older r newest :
  exchange_fetch E (ticks w) pair TIMEFRAME FETCH_LIMIT
    = Ok (older ++ [r; newest]) ->
  fst (analyze_pair E pair w) = Ok (signals_of_row r).
Proof.
  intros H. rewrite analyze_pair_eq, H, iloc_last_closed. reflexivity.
Qed.

(** With fewer than two bars, [analyze_pair] raises [IndexError]. *)
Theorem analyze_pair_short pair w df :
  exchange_fetch E (ticks w) pair TIMEFRAME FETCH_LIMIT = Ok df ->
  (List.length df < 2)%nat ->
  fst (analyze_pair E pair w) = Raise index_error.
Proof.
  intros H Hlen. rewrite analyze_pair_eq, H, iloc_short by assumption.
  reflexivity.
Qed.

Lemma signals_of_row_cases r :
  signals_of_row r = []
  \/ signals_of_row r = [("HAMMER"%string, "LONG"%string, row_close r)]
  \/ signals_of_row r = [("SHOOTING_STAR"%string, "SHORT"%string, row_close r)].
Proof.
  unfold signals_of_row.
  destruct (is_hammer_candle _); [auto|].
  destruct (is_shooting_star_candle _); auto.
Qed.

(** Whatever the exchange answers, [analyze_pair] fetches once, posts
    and logs nothing, raises nothing but [IndexError], and returns at
    most one signal: a Hammer goes LONG, a Shooting Star goes SHORT. *)
Theorem analyze_pair_outcome pair w :
  let (res, w') := analyze_pair E pair w in
  fetched w' = fetched w ++ [pair]
  /\ posted w' = posted w /\ logfile w' = logfile w /\ slept w' = slept w
  /\ match res with
     | Raise e => e = index_error
     | Ok sigs =>
         sigs = []
         \/ (exists price, sigs = [("HAMMER"%string, "LONG"%string, price)])
         \/ (exists price, sigs = [("SHOOTING_STAR"%string, "SHORT"%string, price)])
     end.
Proof.
  rewrite analyze_pair_eq.
  destruct (exchange_fetch E (ticks w) pair TIMEFRAME FETCH_LIMIT) as [df|e];
    cbn [fetched posted logfile slept]; repeat split; auto.
  destruct (iloc df (-2)) as [r|e] eqn:Hi.
  - destruct (signals_of_row_cases r) as [->|[->| ->]]; eauto.
  - eapply iloc_raises; eassumption.
Qed.

(** *** The notifier *)

Lemma send_telegram_eq text w :
  send_telegram E text w =
  (Ok tt,
   World (S (ticks w))
         (stdout w ++ telegram_report (requests_post E (ticks w) (telegram_request text)))
         (fetched w) (posted w ++ [telegram_request text]) (logfile w) (slept w)
         (any_signal w)).
Proof.
  unfold send_telegram, try_except, bind, post, telegram_report.
  change (Request _ _ 10) with (telegram_request text).
  destruct (requests_post E (ticks w) (telegram_request text)) as [r|e].
  - destruct (status_code r =? 200); cbn [negb]; unfold print, ret; cbn.
    + rewrite app_nil_r. reflexivity.
    + reflexivity.
  - reflexivity.
Qed.

(** [send_telegram] never raises, whatever the webhook does: it submits
    one request and prints a diagnostic exactly when the answer is not a
    200; the log file is not touched. *)
Theorem send_telegram_never_raises text w :
  exists out,
    send_telegram E text w =
    (Ok tt,
     World (S (ticks w)) (stdout w ++ out) (fetched w)
           (posted w ++ [telegram_request text]) (logfile w) (slept w)
           (any_signal w))
    /\ (out = [] <->
        exists r, requests_post E (ticks w) (telegram_request text) = Ok r
                  /\ status_code r = 200).
Proof.
  exists (telegram_report (requests_post E (ticks w) (telegram_request text))).
  split; [apply send_telegram_eq|].
  unfold telegram_report.
  destruct (requests_post E (ticks w) (telegram_request text)) as [r|e].
  - destruct (Z.eqb_spec (status_code r) 200) as [H|H]; split.
    + intros _. exists r. auto.
    + reflexivity.
    + discriminate.
    + intros [r' [Hr H']]. congruence.
  - split; [discriminate|]. intros [r [Hr _]]. discriminate.
Qed.

Lemma string_app_assoc (a b c : string) :
  ((a ++ b) ++ c = a ++ b ++ c)%string.
Proof. induction a as [|x a IH]; cbn; [reflexivity|now rewrite IH]. Qed.

(** [log_signal] on the text [main] builds writes a [log_line]. *)
Lemma log_line_eq sent pair typ direction price ts :
  ("[" ++ sent ++ "] "
   ++ (pair ++ " | " ++ typ ++ " | " ++ direction ++ " | price=" ++ price
       ++ " | time=" ++ ts) ++ nl)%string
  = log_line sent pair typ direction price ts.
Proof.
  unfold log_line. rewrite !string_app_assoc. reflexivity.
Qed.

Lemma log_signal_eq text w :
  log_signal E text w =
  let line :=
    ("[" ++ utc_strftime E (ticks w) "%Y-%m-%d %H:%M:%S UTC" ++ "] " ++ text ++ nl)%string in
  match file_append E (S (ticks w)) LOGFILE line with
  | None =>
      (Ok tt,
       World (S (S (ticks w))) (stdout w) (fetched w) (posted w)
             (logfile w ++ line) (slept w) (any_signal w))
  | Some e =>
      (Raise e,
       World (S (S (ticks w))) (stdout w) (fetched w) (posted w) (logfile w)
             (slept w) (any_signal w))
  end.
Proof.
  unfold log_signal, bind, utcnow_strftime, append_file, tick. cbn.
  destruct (file_append E _ _ _); reflexivity.
Qed.

(** [emit_signal], step by step: one request, then the write of one
    [log_line]. *)
Lemma emit_signal_eq pair typ direction price w :
  let ts := utc_strftime E (ticks w) "%Y-%m-%d %H:%M UTC" in
  let sent := utc_strftime E (S (S (ticks w))) "%Y-%m-%d %H:%M:%S UTC" in
  let line := log_line sent pair typ direction (str_float E price) ts in
  exists msg out,
    emit_signal E pair (typ, direction, price) w =
    match file_append E (S (S (S (ticks w)))) LOGFILE line with
    | None =>
        (Ok tt,
         World (S (S (S (S (ticks w))))) (stdout w ++ out) (fetched w)
               (posted w ++ [telegram_request msg]) (logfile w ++ line)
               (slept w) (any_signal w))
    | Some e =>
        (Raise e,
         World (S (S (S (S (ticks w))))) (stdout w ++ out) (fetched w)
               (posted w ++ [telegram_request msg]) (logfile w)
               (slept w) (any_signal w))
    end.
Proof.
  intros ts sent line.
  assert (Hrun : exists msg,
    emit_signal E pair (typ, direction, price) w =
    log_signal E
      (pair ++ " | " ++ typ ++ " | " ++ direction ++ " | price="
       ++ str_float E price ++ " | time=" ++ ts)%string
      (World (S (S (ticks w)))
         ((stdout w
           ++ ["[" ++ pair ++ "] SIGNAL -> " ++ typ ++ " @ " ++ str_float E price]%string)
          ++ telegram_report
               (requests_post E (S (ticks w)) (telegram_request msg)))
         (fetched w) (posted w ++ [telegram_request msg]) (logfile w)
         (slept w) (any_signal w))).
  { eexists. unfold emit_signal, bind, utcnow_strftime, print, tick.
    cbv beta iota zeta. rewrite send_telegram_eq. reflexivity. }
  destruct Hrun as [msg Hrun]. exists msg. eexists.
  rewrite Hrun, log_signal_eq.
  cbn [ticks stdout fetched posted logfile slept any_signal].
  cbv zeta. fold sent.
  rewrite log_line_eq. fold line. rewrite <- app_assoc.
  destruct (file_append E _ _ _); reflexivity.
Qed.

(** Whatever the webhook answers, a signal is logged as soon as the
    file system accepts the write: the log gains exactly one
    [log_line], after exactly one request was submitted. *)
Theorem emit_signal_logs pair typ direction price w :
  let ts := utc_strftime E (ticks w) "%Y-%m-%d %H:%M UTC" in
  let sent := utc_strftime E (S (S (ticks w))) "%Y-%m-%d %H:%M:%S UTC" in
  let line := log_line sent pair typ direction (str_float E price) ts in
  file_append E (S (S (S (ticks w)))) LOGFILE line = None ->
  exists w' msg,
    emit_signal E pair (typ, direction, price) w = (Ok tt, w')
    /\ logfile w' = (logfile w ++ line)%string
    /\ posted w' = posted w ++ [telegram_request msg].
Proof.
  intros ts sent line Hfile.
  destruct (emit_signal_eq pair typ direction price w) as [msg [out Heq]].
  cbv zeta in Heq. fold ts sent line in Heq. rewrite Hfile in Heq.
  eexists. exists msg. split; [exact Heq|]. split; reflexivity.
Qed.

(** *** One pair *)

Ltac scan_done :=
  unfold print, sleep; cbn [ticks stdout fetched posted logfile slept any_signal];
  eexists; split; [reflexivity|];
  cbn [ticks stdout fetched posted logfile slept any_signal].

(** Scanning a pair never raises.  It fetches that pair once and pauses
    once; it submits at most one request and appends at most one line,
    a [log_line] of that pair, and never appends without a request. *)
Theorem scan_pair_effects pair w :
  exists w',
    scan_pair E pair w = (Ok tt, w')
    /\ fetched w' = fetched w ++ [pair]
    /\ slept w' = slept w ++ [SecFloat INTER_PAIR_DELAY]
    /\ ((posted w' = posted w /\ logfile w' = logfile w)
        \/ exists msg,
             posted w' = posted w ++ [telegram_request msg]
             /\ (logfile w' = logfile w
                 \/ exists sent typ direction price ts,
                      logfile w' = (logfile w ++ log_line sent pair typ direction price ts)%string
                      /\ ((typ = "HAMMER" /\ direction = "LONG")
                          \/ (typ = "SHOOTING_STAR" /\ direction = "SHORT"))%string)).
Proof.
  unfold scan_pair. unfold bind at 1. unfold try_except. unfold bind at 1.
  rewrite analyze_pair_eq.
  destruct (exchange_fetch E (ticks w) pair TIMEFRAME FETCH_LIMIT) as [df|e].
  2:{ scan_done. auto. }
  destruct (iloc df (-2)) as [r|e].
  2:{ scan_done. auto. }
  destruct (signals_of_row_cases r) as [->|[->| ->]].
  { scan_done. auto. }
  all: cbn [for_each]; unfold set_any_signal; unfold bind at 1; cbv beta iota;
    cbn [ticks stdout fetched posted logfile slept any_signal]; unfold bind at 1.
  all: lazymatch goal with
    | |- context [emit_signal _ _ (?t, ?d, ?p) ?W] =>
        destruct (emit_signal_eq pair t d p W) as [msg [out Heq]];
        cbv zeta in Heq; rewrite Heq; clear Heq
    end.
  all: cbn [ticks stdout fetched posted logfile slept any_signal].
  all: destruct (file_append E _ _ _); unfold ret; scan_done.
  all: split; [reflexivity|]; split; [reflexivity|].
  all: right; exists msg; split; [reflexivity|].
  all: first [left; reflexivity
             | right; do 5 eexists; split; [reflexivity|auto]].
Qed.

(** A pair whose fetch fails yields no signal: two lines are printed,
    nothing is posted or logged, and the scan goes on. *)
Theorem scan_pair_fetch_failure pair w e :
  exchange_fetch E (ticks w) pair TIMEFRAME FETCH_LIMIT = Raise e ->
  scan_pair E pair w =
  (Ok tt,
   World (S (ticks w))
         (stdout w ++ ["[" ++ pair ++ "] fetch error: " ++ exn_str e;
                       "[" ++ pair ++ "] No pattern."]%string)
         (fetched w ++ [pair]) (posted w) (logfile w)
         (slept w ++ [SecFloat INTER_PAIR_DELAY]) (any_signal w)).
Proof.
  intros H. unfold scan_pair. unfold bind at 1. unfold try_except.
  unfold bind at 1. rewrite analyze_pair_eq, H.
  unfold print, sleep. cbn [ticks stdout fetched posted logfile slept any_signal].
  rewrite <- app_assoc. reflexivity.
Qed.

(** A pair for which fewer than two bars come back yields no signal
    either: the [IndexError] is caught by the loop of [main], which
    prints it and goes on. *)
Theorem scan_pair_short_history pair w df :
  exchange_fetch E (ticks w) pair TIMEFRAME FETCH_LIMIT = Ok df ->
  (List.length df < 2)%nat ->
  scan_pair E pair w =
  (Ok tt,
   World (S (ticks w))
         (stdout w ++ ["[" ++ pair
                       ++ "] analyze error: single positional indexer is out-of-bounds"]%string)
         (fetched w ++ [pair]) (posted w) (logfile w)
         (slept w ++ [SecFloat INTER_PAIR_DELAY]) (any_signal w)).
Proof.
  intros H Hlen. unfold scan_pair. unfold bind at 1. unfold try_except.
  unfold bind at 1. rewrite analyze_pair_eq, H, iloc_short by assumption.
  reflexivity.
Qed.

(** *** A whole cycle *)

(** No failure stops the scan: every pair of the list is fetched, in
    order and once, with one pause each, and at most one request is
    submitted per pair. *)
Theorem scan_pairs_complete pairs w :
  exists w',
    scan_pairs E pairs w = (Ok tt, w')
    /\ fetched w' = fetched w ++ pairs
    /\ slept w' = slept w ++ map (fun _ => SecFloat INTER_PAIR_DELAY) pairs
    /\ (List.length (posted w) <= List.length (posted w')
        <= List.length (posted w) + List.length pairs)%nat.
Proof.
  revert w. induction pairs as [|p pairs IH]; intros w.
  - exists w. cbn. rewrite !app_nil_r. repeat split; lia.
  - destruct (scan_pair_effects p w) as [w1 [Hrun [Hf [Hs Hp]]]].
    destruct (IH w1) as [w2 [Hrun2 [Hf2 [Hs2 Hp2]]]].
    exists w2. unfold scan_pairs in *. cbn [for_each]. unfold bind.
    rewrite Hrun, Hrun2, Hf2, Hs2, Hf, Hs, <- !app_assoc.
    repeat split; cbn [List.length].
    + destruct Hp as [[Hp _]|[msg [Hp _]]]; rewrite Hp in Hp2;
        rewrite ?length_app in Hp2; cbn in Hp2; lia.
    + destruct Hp as [[Hp _]|[msg [Hp _]]]; rewrite Hp in Hp2;
        rewrite ?length_app in Hp2; cbn in Hp2; lia.
Qed.

Lemma seconds_until_next_15min_eq w :
  seconds_until_next_15min E w = (Ok (until_boundary (time_time E (ticks w))), tick w).
Proof. reflexivity. Qed.

(** A cycle always runs to its end: it scans every configured pair
    and then sleeps between 2 and 901 seconds. *)
Theorem cycle_completes w :
  exists w' s,
    cycle E w = (Ok tt, w')
    /\ fetched w' = fetched w ++ PAIRS
    /\ slept w' = slept w ++ map (fun _ => SecFloat INTER_PAIR_DELAY) PAIRS
                          ++ [SecInt (s + 1)]
    /\ 1 <= s <= 900.
Proof.
  unfold cycle. unfold bind at 1. unfold utcnow_strftime at 1.
  unfold bind at 1. unfold print at 1. unfold bind at 1. unfold set_any_signal.
  unfold bind at 1.
  match goal with
  | |- context [scan_pairs E PAIRS ?W] =>
      destruct (scan_pairs_complete PAIRS W) as [w1 [Hrun [Hf [Hs _]]]]
  end.
  rewrite Hrun. cbn [ticks stdout fetched posted logfile slept any_signal tick] in Hf, Hs.
  unfold bind at 1. rewrite seconds_until_next_15min_eq.
  unfold bind, print, sleep, tick.
  cbn [ticks stdout fetched posted logfile slept any_signal].
  eexists. eexists. split; [reflexivity|].
  cbn [ticks stdout fetched posted logfile slept any_signal].
  rewrite Hf, Hs, <- app_assoc.
  split; [reflexivity|]. split; [reflexivity|].
  apply cycle_sleep_positive.
Qed.

Lemma align_completes w :
  exists w', align E w = (Ok tt, w') /\ fetched w' = fetched w.
Proof.
  unfold align. unfold bind at 1. unfold print at 1. unfold bind at 1.
  rewrite seconds_until_next_15min_eq.
  destruct (negb _); unfold bind, print, sleep, ret, tick;
    cbn [ticks stdout fetched posted logfile slept any_signal];
    eexists; split; reflexivity.
Qed.

Lemma cycles_complete n w :
  exists w',
    cycles E n w = (Ok tt, w') /\ fetched w' = fetched w ++ List.concat (repeat PAIRS n).
Proof.
  revert w. induction n as [|n IH]; intros w.
  - exists w. cbn [cycles repeat List.concat]. rewrite app_nil_r. split; reflexivity.
  - destruct (cycle_completes w) as [w1 [s [Hrun [Hf _]]]].
    destruct (IH w1) as [w2 [Hrun2 Hf2]].
    exists w2. cbn [cycles repeat List.concat]. unfold bind.
    rewrite Hrun, Hrun2, Hf2, Hf, <- app_assoc. split; reflexivity.
Qed.

(** [main] never stops on an exception: after any number of turns of
    its loop, each turn has fetched every configured pair, in order. *)
Theorem main_completes n w :
  exists w',
    main E n w = (Ok tt, w') /\ fetched w' = fetched w ++ List.concat (repeat PAIRS n).
Proof.
  destruct (align_completes w) as [w0 [Hrun0 Hf0]].
  destruct (cycles_complete n w0) as [w1 [Hrun Hf]].
  exists w1. unfold main, bind. rewrite Hrun0, Hrun, Hf, Hf0. split; reflexivity.
Qed.

(** The order in which the two patterns are tried never decides the
    outcome: trying Shooting Star first gives the same signals. *)
Theorem analyze_pair_order_irrelevant pair w older r newest :
  exchange_fetch E (ticks w) pair TIMEFRAME FETCH_LIMIT
    = Ok (older ++ [r; newest]) ->
  fst (analyze_pair E pair w) =
  Ok (if is_shooting_star_candle (candle_of_row r) then
        [("SHOOTING_STAR"%string, "SHORT"%string, row_close r)]
      else if is_hammer_candle (candle_of_row r) then
        [("HAMMER"%string, "LONG"%string, row_close r)]
      else []).
Proof.
  intros H. rewrite (analyze_pair_last_closed _ _ _ _ _ H). f_equal.
  unfold signals_of_row.
  pose proof (hammer_star_exclusive (candle_of_row r)) as Hx.
  destruct (is_hammer_candle _), (is_shooting_star_candle _);
    try reflexivity; discriminate.
Qed.

End BotProperties.

(** ** Instances *)

Lemma nan_candle_no_pattern_witness :
  is_nan (Float64.of_int 100) || is_nan (Float64.of_int 101)
    || is_nan S754_nan || is_nan (Float64.of_int 99) = true
  /\ is_hammer_candle
       (Candle (Float64.of_int 100) (Float64.of_int 101) S754_nan (Float64.of_int 99))
     = false.
Proof.
  split; [reflexivity|].
  apply (nan_candle_no_pattern
           (Candle (Float64.of_int 100) (Float64.of_int 101) S754_nan
                   (Float64.of_int 99))).
  reflexivity.
Defined.

Lemma flat_candle_no_pattern_witness :
  (open (candle_of_row flat_row) == close (candle_of_row flat_row))%f64 = true
  /\ is_shooting_star_candle (candle_of_row flat_row) = false.
Proof.
  split; [vm_compute; reflexivity|].
  apply (flat_candle_no_pattern (candle_of_row flat_row)).
  vm_compute. reflexivity.
Defined.

Lemma pattern_wick_positive_witness :
  is_hammer_candle (candle_of_row hammer_row) = true
  /\ (lower_wick (candle_of_row hammer_row) >? Float64.of_int 0)%f64 = true.
Proof.
  split; [vm_compute; reflexivity|].
  apply (proj1 (pattern_wick_positive (candle_of_row hammer_row))).
  vm_compute. reflexivity.
Defined.

Lemma until_boundary_least_witness :
  0 <= 800 /\ (1000 + 800) mod 900 = 0 /\ until_boundary 1000 <= 800.
Proof.
  split; [lia|]. split; [reflexivity|].
  apply (until_boundary_least 1000 800); [lia|reflexivity].
Defined.

Lemma analyze_pair_last_closed_witness :
  exchange_fetch (constant_env (Ok [flat_row; hammer_row; flat_row]) (Ok (Response 200 "ok")) None)
                 (ticks start) "ETH/USDT" TIMEFRAME FETCH_LIMIT
    = Ok ([flat_row] ++ [hammer_row; flat_row])
  /\ fst (analyze_pair
            (constant_env (Ok [flat_row; hammer_row; flat_row]) (Ok (Response 200 "ok")) None)
            "ETH/USDT" start)
     = Ok (signals_of_row hammer_row).
Proof.
  split; [reflexivity|].
  apply (analyze_pair_last_closed _ "ETH/USDT"%string start [flat_row] hammer_row flat_row).
  reflexivity.
Defined.

Lemma analyze_pair_order_irrelevant_witness :
  exchange_fetch (constant_env (Ok [flat_row; hammer_row; flat_row]) (Ok (Response 200 "ok")) None)
                 (ticks start) "ETH/USDT" TIMEFRAME FETCH_LIMIT
    = Ok ([flat_row] ++ [hammer_row; flat_row])
  /\ fst (analyze_pair
            (constant_env (Ok [flat_row; hammer_row; flat_row]) (Ok (Response 200 "ok")) None)
            "ETH/USDT" start)
     = Ok (if is_shooting_star_candle (candle_of_row hammer_row) then
             [("SHOOTING_STAR"%string, "SHORT"%string, row_close hammer_row)]
           else if is_hammer_candle (candle_of_row hammer_row) then
             [("HAMMER"%string, "LONG"%string, row_close hammer_row)]
           else []).
Proof.
  split; [reflexivity|].
  apply (analyze_pair_order_irrelevant _ "ETH/USDT"%string start [flat_row] hammer_row flat_row).
  reflexivity.
Defined.

Lemma analyze_pair_short_witness :
  exchange_fetch (constant_env (Ok [hammer_row]) (Ok (Response 200 "ok")) None)
                 (ticks start) "ETH/USDT" TIMEFRAME FETCH_LIMIT = Ok [hammer_row]
  /\ (List.length [hammer_row] < 2)%nat
  /\ fst (analyze_pair (constant_env (Ok [hammer_row]) (Ok (Response 200 "ok")) None)
                       "ETH/USDT" start)
     = Raise index_error.
Proof.
  split; [reflexivity|]. split; [cbn; lia|].
  apply (analyze_pair_short _ "ETH/USDT"%string start [hammer_row]);
    [reflexivity | cbn; lia].
Defined.

(** The webhook answers 500 and the line is written all the same. *)
Lemma emit_signal_logs_witness :
  file_append (constant_env (Ok [flat_row; hammer_row; flat_row])
                            (Ok (Response 500 "Internal Server Error")) None)
              3 LOGFILE
              (log_line "%Y-%m-%d %H:%M:%S UTC" "ETH/USDT" "HAMMER" "LONG" "99.0"
                        "%Y-%m-%d %H:%M UTC") = None
  /\ exists w' msg,
    emit_signal (constant_env (Ok [flat_row; hammer_row; flat_row])
                              (Ok (Response 500 "Internal Server Error")) None)
                "ETH/USDT" ("HAMMER"%string, "LONG"%string, Float64.of_int 99) start
      = (Ok tt, w')
    /\ logfile w'
       = (logfile start
          ++ log_line "%Y-%m-%d %H:%M:%S UTC" "ETH/USDT" "HAMMER" "LONG" "99.0"
                      "%Y-%m-%d %H:%M UTC")%string
    /\ posted w' = posted start ++ [telegram_request msg].
Proof.
  split; [reflexivity|].
  apply (emit_signal_logs
           (constant_env (Ok [flat_row; hammer_row; flat_row])
                         (Ok (Response 500 "Internal Server Error")) None)
           "ETH/USDT"%string "HAMMER"%string "LONG"%string (Float64.of_int 99) start).
  reflexivity.
Defined.

Lemma scan_pair_fetch_failure_witness :
  exchange_fetch (constant_env (Raise (Exn "NetworkError" "timed out"))
                               (Ok (Response 200 "ok")) None)
                 (ticks start) "ETH/USDT" TIMEFRAME FETCH_LIMIT
    = Raise (Exn "NetworkError" "timed out")
  /\ scan_pair (constant_env (Raise (Exn "NetworkError" "timed out"))
                          (Ok (Response 200 "ok")) None)
            "ETH/USDT" start
  = (Ok tt,
     World 1 ["[ETH/USDT] fetch error: timed out"; "[ETH/USDT] No pattern."]%string
           ["ETH/USDT"%string] [] EmptyString [SecFloat INTER_PAIR_DELAY] false).
Proof.
  split; [reflexivity|].
  apply (scan_pair_fetch_failure
           (constant_env (Raise (Exn "NetworkError" "timed out"))
                         (Ok (Response 200 "ok")) None)
           "ETH/USDT"%string start (Exn "NetworkError" "timed out")).
  reflexivity.
Defined.

Lemma scan_pair_short_history_witness :
  exchange_fetch (constant_env (Ok [hammer_row]) (Ok (Response 200 "ok")) None)
                 (ticks start) "ETH/USDT" TIMEFRAME FETCH_LIMIT = Ok [hammer_row]
  /\ (List.length [hammer_row] < 2)%nat
  /\ scan_pair (constant_env (Ok [hammer_row]) (Ok (Response 200 "ok")) None)
            "ETH/USDT" start
  = (Ok tt,
     World 1
           ["[ETH/USDT] analyze error: single positional indexer is out-of-bounds"]%string
           ["ETH/USDT"%string] [] EmptyString [SecFloat INTER_PAIR_DELAY] false).
Proof.
  split; [reflexivity|]. split; [cbn; lia|].
  apply (scan_pair_short_history
           (constant_env (Ok [hammer_row]) (Ok (Response 200 "ok")) None)
           "ETH/USDT"%string start [hammer_row]);
    [reflexivity | cbn; lia].
Defined.

(** A run on a Hammer while the webhook is down: the console, the
    request and the log line, as the script produces them. *)
Example scan_pair_hammer_run :
  let E := constant_env (Ok [flat_row; hammer_row; flat_row])
                        (Raise (Exn "ConnectionError" "unreachable")) None in
  let w' := snd (scan_pair E "ETH/USDT" start) in
  stdout w' = ["[ETH/USDT] SIGNAL -> HAMMER @ 99.0";
               "Telegram error: unreachable"]%string
  /\ List.length (posted w') = 1%nat
  /\ logfile w'
     = ("[%Y-%m-%d %H:%M:%S UTC] ETH/USDT | HAMMER | LONG | price=99.0 | time=%Y-%m-%d %H:%M UTC"
        ++ nl)%string
  /\ any_signal w' = true.
Proof. vm_compute. repeat split. Qed.
